(** * The JWT claims validator of tink (python/tink/jwt/_jwt_validator.py)

    A shallow embedding of [JwtValidator], [new_validator] and [validate],
    and the properties of the validation policy and of the ordered checks.

    Conventions of the embedding.
    - [datetime.timedelta] is a signed count of microseconds, the quantity
      Python orders and adds timedeltas by.
    - [datetime.datetime] is a wall-clock reading in microseconds together
      with an optional [tzinfo]; the representable range of Python's
      datetimes (years 1 to 9999) is not modelled, so the sum and the
      difference of a datetime and a timedelta never overflow.
    - a [tzinfo] object is a fixed offset from UTC, and as every object
      without [__bool__] or [__len__] it is true in a boolean context.
    - an exception carrying a [%]-formatted message is kept as the format
      string of the source and the list of its arguments.
    - the clock that [datetime.datetime.now] reads is an argument of
      [validate]: the UTC reading in microseconds. *)

From Stdlib Require Import ZArith String List Bool Lia.
Import ListNotations.

Local Open Scope string_scope.
Local Open Scope Z_scope.

(** ** Python values used by the validator *)

(** [datetime.timedelta], normalised to microseconds. *)
Record timedelta : Type := mk_timedelta { microseconds : Z }.

Definition timedelta_zero : timedelta := mk_timedelta 0.
Definition timedelta_seconds (s : Z) : timedelta := mk_timedelta (s * 1000000).
Definition timedelta_minutes (m : Z) : timedelta := mk_timedelta (m * 60 * 1000000).

Definition td_gtb (a b : timedelta) : bool := microseconds a >? microseconds b.

(** A [tzinfo] object: a fixed offset from UTC, as [datetime.timezone]. *)
Inductive tzinfo_t : Type := FixedOffset (utcoffset : timedelta).

Definition utc : tzinfo_t := FixedOffset timedelta_zero.

(** [datetime.datetime]: naive when [tzinfo] is [None], aware otherwise. *)
Record datetime : Type := mk_datetime { wall : Z; tzinfo : option tzinfo_t }.

Definition offset_of (tz : option tzinfo_t) : Z :=
  match tz with
  | Some (FixedOffset o) => microseconds o
  | None => 0
  end.

(** The UTC instant of an aware datetime, in microseconds. A naive datetime
    is only ever ordered against another naive one, by its wall reading. *)
Definition instant (d : datetime) : Z := wall d - offset_of (tzinfo d).

Definition is_aware (d : datetime) : bool :=
  match tzinfo d with Some _ => true | None => false end.

(** [d - td] and [d + td]: the wall reading moves, the [tzinfo] stays. *)
Definition dt_sub (d : datetime) (td : timedelta) : datetime :=
  mk_datetime (wall d - microseconds td) (tzinfo d).
Definition dt_add (d : datetime) (td : timedelta) : datetime :=
  mk_datetime (wall d + microseconds td) (tzinfo d).

(** [datetime.datetime.now(tz=datetime.timezone.utc)] for a clock that
    reads [utc_now] microseconds. *)
Definition datetime_now_utc (utc_now : Z) : datetime :=
  mk_datetime utc_now (Some utc).

(** Python's truth value testing, for the types the constructor tests. *)
Class Truthy (A : Type) : Type := truth : A -> bool.

#[export] Instance truthy_bool : Truthy bool := fun b => b.
#[export] Instance truthy_str : Truthy string :=
  fun s => match s with EmptyString => false | String _ _ => true end.
#[export] Instance truthy_timedelta : Truthy timedelta :=
  fun td => negb (Z.eqb (microseconds td) 0).
#[export] Instance truthy_tzinfo : Truthy tzinfo_t := fun _ => true.
#[export] Instance truthy_datetime : Truthy datetime := fun _ => true.
#[export] Instance truthy_optional {A} `{Truthy A} : Truthy (option A) :=
  fun o => match o with Some a => truth a | None => false end.

Definition is_not_None {A} (o : option A) : bool :=
  match o with Some _ => true | None => false end.

(** ** Exceptions and results *)

Inductive fmt_arg : Type :=
| ArgStr (s : string)
| ArgDatetime (d : datetime).

Inductive exn : Type :=
| ValueError (msg : string)
| TypeError (msg : string)
| KeyError (key : string)
| JwtInvalidError (fmt : string) (args : list fmt_arg).

Inductive result (A : Type) : Type :=
| Ok (a : A)
| Raise (e : exn).
Arguments Ok {A} a.
Arguments Raise {A} e.

(** ** The validation policy *)

Definition _MAX_CLOCK_SKEW : timedelta := timedelta_minutes 10.

(** The keyword arguments of [JwtValidator.__init__]. *)
Record kwargs : Type := mk_kwargs {
  kw_expected_type_header : option string;
  kw_expected_issuer : option string;
  kw_expected_audience : option string;
  kw_ignore_type_header : bool;
  kw_ignore_issuer : bool;
  kw_ignore_audiences : bool;
  kw_allow_missing_expiration : bool;
  kw_expect_issued_in_the_past : bool;
  kw_clock_skew : option timedelta;
  kw_fixed_now : option datetime
}.

Module JwtValidator.

Record t : Type := mk {
  _expected_type_header : option string;
  _expected_issuer : option string;
  _expected_audience : option string;
  _ignore_type_header : bool;
  _ignore_issuer : bool;
  _ignore_audiences : bool;
  _allow_missing_expiration : bool;
  _expect_issued_in_the_past : bool;
  _clock_skew : timedelta;
  _fixed_now : option datetime
}.

Definition has_expected_type_header (self : t) : bool :=
  is_not_None (_expected_type_header self).
Definition expected_type_header (self : t) : option string :=
  _expected_type_header self.
Definition has_expected_issuer (self : t) : bool :=
  is_not_None (_expected_issuer self).
Definition expected_issuer (self : t) : option string :=
  _expected_issuer self.
Definition has_expected_audience (self : t) : bool :=
  is_not_None (_expected_audience self).
Definition expected_audience (self : t) : option string :=
  _expected_audience self.
Definition ignore_type_header (self : t) : bool := _ignore_type_header self.
Definition ignore_issuer (self : t) : bool := _ignore_issuer self.
Definition ignore_audiences (self : t) : bool := _ignore_audiences self.
Definition allow_missing_expiration (self : t) : bool :=
  _allow_missing_expiration self.
Definition expect_issued_in_the_past (self : t) : bool :=
  _expect_issued_in_the_past self.
Definition clock_skew (self : t) : timedelta := _clock_skew self.
Definition has_fixed_now (self : t) : bool := is_not_None (_fixed_now self).
Definition fixed_now (self : t) : option datetime := _fixed_now self.

(** [JwtValidator.__init__]: the guards in the order of the source, each
    [if x and y] testing the truth value of [x]. *)
Definition __init__ (kw : kwargs) : result t :=
  if truth (kw_expected_type_header kw) && truth (kw_ignore_type_header kw) then
    Raise (ValueError
      "expected_type_header and ignore_type_header cannot be used together")
  else if truth (kw_expected_issuer kw) && truth (kw_ignore_issuer kw) then
    Raise (ValueError
      "expected_issuer and ignore_issuer cannot be used together")
  else if truth (kw_expected_audience kw) && truth (kw_ignore_audiences kw) then
    Raise (ValueError
      "expected_audience and ignore_audiences cannot be used together")
  else
    let skew :=
      if truth (kw_clock_skew kw) then
        match kw_clock_skew kw with
        | Some cs =>
            if td_gtb cs _MAX_CLOCK_SKEW then
              Raise (ValueError "clock skew too large, max is 10 minutes")
            else Ok cs
        | None => Ok timedelta_zero
        end
      else Ok timedelta_zero in
    match skew with
    | Raise e => Raise e
    | Ok cs =>
        if truth (kw_fixed_now kw) &&
           negb (truth (match kw_fixed_now kw with
                        | Some d => tzinfo d
                        | None => None
                        end))
        then Raise (ValueError "fixed_now without tzinfo")
        else
          Ok (mk
                (kw_expected_type_header kw)
                (kw_expected_issuer kw)
                (kw_expected_audience kw)
                (kw_ignore_type_header kw)
                (kw_ignore_issuer kw)
                (kw_ignore_audiences kw)
                (kw_allow_missing_expiration kw)
                (kw_expect_issued_in_the_past kw)
                cs
                (kw_fixed_now kw))
    end.

End JwtValidator.

(** The defaults of [new_validator]'s keyword arguments. *)
Definition default_kwargs : kwargs :=
  mk_kwargs None None None false false false false false None None.

Definition new_validator (kw : kwargs) : result JwtValidator.t :=
  JwtValidator.__init__ kw.

(** ** The decoded token *)

Module RawJwt.

(** Modelled from the spec: the timestamps of [_raw_jwt.RawJwt], which is
    not among the sources, are timestamps with timezone context: a datetime
    that always carries its [tzinfo]. *)
Record timestamp : Type := mk_timestamp { ts_wall : Z; ts_tzinfo : tzinfo_t }.

Definition to_datetime (ts : timestamp) : datetime :=
  mk_datetime (ts_wall ts) (Some (ts_tzinfo ts)).

(** Modelled from the spec: the class [_raw_jwt.RawJwt] is not among the
    sources. The specification gives it as a read-only view with a
    presence accessor and a value accessor for expiration, not-before and
    issued-at (timestamps with timezone context), type header and issuer
    (strings) and audience (a collection of strings); presence is exact
    presence, so a claim holding the empty string is present. A value
    accessor called on an absent claim raises. *)
Record t : Type := mk {
  _exp : option timestamp;
  _nbf : option timestamp;
  _iat : option timestamp;
  _typ : option string;
  _iss : option string;
  _aud : option (list string)
}.

(** Modelled from the spec: the accessors of [_raw_jwt.RawJwt]; each
    [has_] accessor is an exact presence test and each value accessor reads
    the claim, raising when it is absent. *)
Definition get {A} (key : string) (o : option A) : result A :=
  match o with Some a => Ok a | None => Raise (KeyError key) end.

Definition has_expiration (self : t) : bool := is_not_None (_exp self).
Definition expiration (self : t) : result datetime :=
  get "exp" (option_map to_datetime (_exp self)).
Definition has_not_before (self : t) : bool := is_not_None (_nbf self).
Definition not_before (self : t) : result datetime :=
  get "nbf" (option_map to_datetime (_nbf self)).
Definition has_issued_at (self : t) : bool := is_not_None (_iat self).
Definition issued_at (self : t) : result datetime :=
  get "iat" (option_map to_datetime (_iat self)).
Definition has_type_header (self : t) : bool := is_not_None (_typ self).
Definition type_header (self : t) : result string := get "typ" (_typ self).
Definition has_issuer (self : t) : bool := is_not_None (_iss self).
Definition issuer (self : t) : result string := get "iss" (_iss self).
Definition has_audiences (self : t) : bool := is_not_None (_aud self).
Definition audiences (self : t) : result (list string) :=
  get "aud" (_aud self).

End RawJwt.

(** ** The monad of [validate]: the two objects it is handed, and exceptions *)

Record heap : Type := mk_heap {
  validator_obj : JwtValidator.t;
  raw_jwt_obj : RawJwt.t
}.

Definition M (A : Type) : Type := heap -> result A * heap.

Definition ret {A} (a : A) : M A := fun h => (Ok a, h).
Definition raise {A} (e : exn) : M A := fun h => (Raise e, h).
Definition bind {A B} (m : M A) (k : A -> M B) : M B :=
  fun h =>
    match m h with
    | (Ok a, h') => k a h'
    | (Raise e, h') => (Raise e, h')
    end.

Notation "x <- m ;; k" := (bind m (fun x => k))
  (at level 61, m at next level, right associativity).
Notation "m ;;; k" := (bind m (fun _ => k))
  (at level 61, right associativity).

(** A method call on the validator, and on the token. *)
Definition validator {A} (method : JwtValidator.t -> A) : M A :=
  fun h => (Ok (method (validator_obj h)), h).
Definition raw_jwt {A} (method : RawJwt.t -> result A) : M A :=
  fun h => (method (raw_jwt_obj h), h).
Definition raw_jwt_has (method : RawJwt.t -> bool) : M bool :=
  fun h => (Ok (method (raw_jwt_obj h)), h).

(** Python's short-circuit [and], [or], and [not], on effectful operands. *)
Definition and_ (a b : M bool) : M bool :=
  x <- a ;; if x then b else ret false.
Definition or_ (a b : M bool) : M bool :=
  x <- a ;; if x then ret true else b.
Definition not_ (a : M bool) : M bool :=
  x <- a ;; ret (negb x).

(** [if c: raise e]. *)
Definition raise_if (c : bool) (e : M exn) : M unit :=
  if c then (x <- e ;; raise x) else ret tt.

(** The ordering of two datetimes: by wall reading when both are naive, by
    instant when both are aware, a [TypeError] when they are mixed. *)
Definition dt_cmp (op : Z -> Z -> bool) (a b : datetime) : M bool :=
  match tzinfo a, tzinfo b with
  | None, None => ret (op (wall a) (wall b))
  | Some _, Some _ => ret (op (instant a) (instant b))
  | _, _ =>
      raise (TypeError "can't compare offset-naive and offset-aware datetimes")
  end.
Definition dt_le : datetime -> datetime -> M bool := dt_cmp Z.leb.
Definition dt_gt : datetime -> datetime -> M bool := dt_cmp Z.gtb.

(** [x in xs] on a list of strings. *)
Definition str_in (x : string) (xs : list string) : bool :=
  existsb (String.eqb x) xs.

Definition str_ne (a b : string) : bool := negb (String.eqb a b).

(** The [%s] argument for an optional string: [None] prints as such. *)
Definition arg_opt (o : option string) : fmt_arg :=
  match o with Some s => ArgStr s | None => ArgStr "None" end.

(** [now - td] and [now + td] where [now] is the value bound at the top of
    [validate]; [None] supports neither operator. *)
Definition now_minus (now : option datetime) (td : timedelta) : M datetime :=
  match now with
  | Some d => ret (dt_sub d td)
  | None => raise (TypeError "unsupported operand type(s) for -")
  end.
Definition now_plus (now : option datetime) (td : timedelta) : M datetime :=
  match now with
  | Some d => ret (dt_add d td)
  | None => raise (TypeError "unsupported operand type(s) for +")
  end.

(** [expected != actual] and [expected not in actuals], the expected value
    being an optional string. *)
Definition opt_ne (expected : option string) (actual : string) : bool :=
  match expected with Some e => str_ne e actual | None => true end.
Definition opt_not_in (expected : option string) (actuals : list string) : bool :=
  match expected with Some e => negb (str_in e actuals) | None => true end.

(** ** [validate] *)

Definition validate (utc_now : Z) : M unit :=
  has_fixed_now <- validator JwtValidator.has_fixed_now ;;
  now <- (if has_fixed_now : bool then validator JwtValidator.fixed_now
          else ret (Some (datetime_now_utc utc_now))) ;;
  (* expiration *)
  c <- and_ (not_ (raw_jwt_has RawJwt.has_expiration))
            (not_ (validator JwtValidator.allow_missing_expiration)) ;;
  raise_if c (ret (JwtInvalidError "token is missing an expiration" [])) ;;;
  c <- and_ (raw_jwt_has RawJwt.has_expiration)
            (e <- raw_jwt RawJwt.expiration ;;
             skew <- validator JwtValidator.clock_skew ;;
             limit <- now_minus now skew ;;
             dt_le e limit) ;;
  raise_if c (e <- raw_jwt RawJwt.expiration ;;
              ret (JwtInvalidError "token has expired since %s"
                     [ArgDatetime e])) ;;;
  (* not before *)
  c <- and_ (raw_jwt_has RawJwt.has_not_before)
            (n <- raw_jwt RawJwt.not_before ;;
             skew <- validator JwtValidator.clock_skew ;;
             limit <- now_plus now skew ;;
             dt_gt n limit) ;;
  raise_if c (n <- raw_jwt RawJwt.not_before ;;
              ret (JwtInvalidError "token cannot be used before %s"
                     [ArgDatetime n])) ;;;
  (* issued at *)
  expect_iat <- validator JwtValidator.expect_issued_in_the_past ;;
  (if expect_iat : bool then
     c <- not_ (raw_jwt_has RawJwt.has_issued_at) ;;
     raise_if c (ret (JwtInvalidError "token is missing iat claim" [])) ;;;
     c <- (i <- raw_jwt RawJwt.issued_at ;;
           skew <- validator JwtValidator.clock_skew ;;
           limit <- now_plus now skew ;;
           dt_gt i limit) ;;
     raise_if c (i <- raw_jwt RawJwt.issued_at ;;
                 ret (JwtInvalidError
                        "token has a invalid iat claim in the future: %s"
                        [ArgDatetime i]))
   else ret tt) ;;;
  (* type header *)
  has_expected <- validator JwtValidator.has_expected_type_header ;;
  (if has_expected : bool then
     c <- not_ (raw_jwt_has RawJwt.has_type_header) ;;
     raise_if c (x <- validator JwtValidator.expected_type_header ;;
                 ret (JwtInvalidError
                        "invalid JWT; missing expected type header %s."
                        [arg_opt x])) ;;;
     c <- (x <- validator JwtValidator.expected_type_header ;;
           y <- raw_jwt RawJwt.type_header ;;
           ret (opt_ne x y)) ;;
     raise_if c (x <- validator JwtValidator.expected_type_header ;;
                 y <- raw_jwt RawJwt.type_header ;;
                 ret (JwtInvalidError
                        "invalid JWT; expected type header %s, but got %s"
                        [arg_opt x; ArgStr y]))
   else
     c <- and_ (raw_jwt_has RawJwt.has_type_header)
               (not_ (validator JwtValidator.ignore_type_header)) ;;
     raise_if c (ret (JwtInvalidError
                        "invalid JWT; token has type_header set, but validator not."
                        []))) ;;;
  (* issuer *)
  has_expected <- validator JwtValidator.has_expected_issuer ;;
  (if has_expected : bool then
     c <- not_ (raw_jwt_has RawJwt.has_issuer) ;;
     raise_if c (x <- validator JwtValidator.expected_issuer ;;
                 ret (JwtInvalidError
                        "invalid JWT; missing expected issuer %s."
                        [arg_opt x])) ;;;
     c <- (x <- validator JwtValidator.expected_issuer ;;
           y <- raw_jwt RawJwt.issuer ;;
           ret (opt_ne x y)) ;;
     raise_if c (x <- validator JwtValidator.expected_issuer ;;
                 y <- raw_jwt RawJwt.issuer ;;
                 ret (JwtInvalidError
                        "invalid JWT; expected issuer %s, but got %s"
                        [arg_opt x; ArgStr y]))
   else
     c <- and_ (raw_jwt_has RawJwt.has_issuer)
               (not_ (validator JwtValidator.ignore_issuer)) ;;
     raise_if c (ret (JwtInvalidError
                        "invalid JWT; token has issuer set, but validator not."
                        []))) ;;;
  (* audience *)
  has_expected <- validator JwtValidator.has_expected_audience ;;
  (if has_expected : bool then
     c <- or_ (not_ (raw_jwt_has RawJwt.has_audiences))
              (x <- validator JwtValidator.expected_audience ;;
               ys <- raw_jwt RawJwt.audiences ;;
               ret (opt_not_in x ys)) ;;
     raise_if c (x <- validator JwtValidator.expected_audience ;;
                 ret (JwtInvalidError
                        "invalid JWT; missing expected audience %s."
                        [arg_opt x]))
   else
     c <- and_ (raw_jwt_has RawJwt.has_audiences)
               (not_ (validator JwtValidator.ignore_audiences)) ;;
     raise_if c (ret (JwtInvalidError
                        "invalid JWT; token has audience set, but validator not."
                        []))).

(** The outcome of [validate validator raw_jwt] at clock reading [utc_now]. *)
Definition run_validate (utc_now : Z) (v : JwtValidator.t) (t : RawJwt.t)
  : result unit :=
  fst (validate utc_now (mk_heap v t)).

(** The value bound to [now] at the top of [validate], once narrowed. *)
Definition now_of (utc_now : Z) (v : JwtValidator.t) : datetime :=
  match JwtValidator.fixed_now v with
  | Some d => d
  | None => datetime_now_utc utc_now
  end.

(** ** The ordered rules, following the specification

    The second reading of [validate]: the specification's numbered steps as
    a list of rules in their stated order, each with the condition under
    which it is violated and the reason it reports. [spec_validate] reports
    the first violated rule of the list. *)

Inductive rule : Type :=
| MissingExpiration
| Expired
| NotBefore
| MissingIssuedAt
| IssuedInFuture
| TypeHeader
| Issuer
| Audience.

Definition rule_order : list rule :=
  [MissingExpiration; Expired; NotBefore; MissingIssuedAt; IssuedInFuture;
   TypeHeader; Issuer; Audience].

Definition ts_instant (ts : RawJwt.timestamp) : Z :=
  instant (RawJwt.to_datetime ts).

(** An expect-or-ignore rule on a string claim: with an expected value the
    claim must be present and equal to it; without one the claim must be
    absent unless it is ignored. *)
Definition string_rule_violated
    (expected : option string) (ignore : bool) (claim : option string) : bool :=
  match expected with
  | Some e =>
      match claim with
      | Some c => negb (String.eqb e c)
      | None => true
      end
  | None => is_not_None claim && negb ignore
  end.

Definition audience_rule_violated
    (expected : option string) (ignore : bool) (claim : option (list string))
  : bool :=
  match expected with
  | Some e =>
      match claim with
      | Some cs => negb (existsb (String.eqb e) cs)
      | None => true
      end
  | None => is_not_None claim && negb ignore
  end.

Section Rules.

Variable now : datetime.
Variable v : JwtValidator.t.
Variable t : RawJwt.t.

Let skew : Z := microseconds (JwtValidator.clock_skew v).

Definition violated (r : rule) : bool :=
  match r with
  | MissingExpiration =>
      negb (RawJwt.has_expiration t) &&
      negb (JwtValidator.allow_missing_expiration v)
  | Expired =>
      match RawJwt._exp t with
      | Some e => ts_instant e <=? instant now - skew
      | None => false
      end
  | NotBefore =>
      match RawJwt._nbf t with
      | Some n => ts_instant n >? instant now + skew
      | None => false
      end
  | MissingIssuedAt =>
      JwtValidator.expect_issued_in_the_past v &&
      negb (RawJwt.has_issued_at t)
  | IssuedInFuture =>
      JwtValidator.expect_issued_in_the_past v &&
      match RawJwt._iat t with
      | Some i => ts_instant i >? instant now + skew
      | None => false
      end
  | TypeHeader =>
      string_rule_violated (JwtValidator.expected_type_header v)
        (JwtValidator.ignore_type_header v) (RawJwt._typ t)
  | Issuer =>
      string_rule_violated (JwtValidator.expected_issuer v)
        (JwtValidator.ignore_issuer v) (RawJwt._iss t)
  | Audience =>
      audience_rule_violated (JwtValidator.expected_audience v)
        (JwtValidator.ignore_audiences v) (RawJwt._aud t)
  end.

Definition ts_arg (o : option RawJwt.timestamp) : list fmt_arg :=
  match o with
  | Some ts => [ArgDatetime (RawJwt.to_datetime ts)]
  | None => []
  end.

(** The reason a violated rule reports. *)
Definition reason (r : rule) : exn :=
  match r with
  | MissingExpiration => JwtInvalidError "token is missing an expiration" []
  | Expired =>
      JwtInvalidError "token has expired since %s" (ts_arg (RawJwt._exp t))
  | NotBefore =>
      JwtInvalidError "token cannot be used before %s"
        (ts_arg (RawJwt._nbf t))
  | MissingIssuedAt => JwtInvalidError "token is missing iat claim" []
  | IssuedInFuture =>
      JwtInvalidError "token has a invalid iat claim in the future: %s"
        (ts_arg (RawJwt._iat t))
  | TypeHeader =>
      match JwtValidator.expected_type_header v, RawJwt._typ t with
      | Some e, None =>
          JwtInvalidError "invalid JWT; missing expected type header %s."
            [ArgStr e]
      | Some e, Some c =>
          JwtInvalidError "invalid JWT; expected type header %s, but got %s"
            [ArgStr e; ArgStr c]
      | None, _ =>
          JwtInvalidError
            "invalid JWT; token has type_header set, but validator not." []
      end
  | Issuer =>
      match JwtValidator.expected_issuer v, RawJwt._iss t with
      | Some e, None =>
          JwtInvalidError "invalid JWT; missing expected issuer %s."
            [ArgStr e]
      | Some e, Some c =>
          JwtInvalidError "invalid JWT; expected issuer %s, but got %s"
            [ArgStr e; ArgStr c]
      | None, _ =>
          JwtInvalidError
            "invalid JWT; token has issuer set, but validator not." []
      end
  | Audience =>
      match JwtValidator.expected_audience v with
      | Some e =>
          JwtInvalidError "invalid JWT; missing expected audience %s."
            [ArgStr e]
      | None =>
          JwtInvalidError
            "invalid JWT; token has audience set, but validator not." []
      end
  end.

Definition first_violation : option rule := find violated rule_order.

Definition spec_validate : result unit :=
  match first_violation with
  | Some r => Raise (reason r)
  | None => Ok tt
  end.

End Rules.

(** The outcome is a token-invalid error whose message has format [fmt]. *)
Definition raises_invalid (fmt : string) (r : result unit) : Prop :=
  exists args, r = Raise (JwtInvalidError fmt args).

(** ** Failing a check, and reaching it *)

(** The position of a rule in [rule_order]. *)
Definition rule_index (r : rule) : nat :=
  match r with
  | MissingExpiration => 0
  | Expired => 1
  | NotBefore => 2
  | MissingIssuedAt => 3
  | IssuedInFuture => 4
  | TypeHeader => 5
  | Issuer => 6
  | Audience => 7
  end.

(** The format string of the reason a rule reports. *)
Definition reason_fmt (v : JwtValidator.t) (t : RawJwt.t) (r : rule) : string :=
  match reason v t r with
  | JwtInvalidError fmt _ => fmt
  | ValueError _ | TypeError _ | KeyError _ => ""
  end.

(** The format strings a rule can report. *)
Definition rule_fmts (r : rule) : list string :=
  match r with
  | MissingExpiration => ["token is missing an expiration"]
  | Expired => ["token has expired since %s"]
  | NotBefore => ["token cannot be used before %s"]
  | MissingIssuedAt => ["token is missing iat claim"]
  | IssuedInFuture => ["token has a invalid iat claim in the future: %s"]
  | TypeHeader =>
      ["invalid JWT; missing expected type header %s.";
       "invalid JWT; expected type header %s, but got %s";
       "invalid JWT; token has type_header set, but validator not."]
  | Issuer =>
      ["invalid JWT; missing expected issuer %s.";
       "invalid JWT; expected issuer %s, but got %s";
       "invalid JWT; token has issuer set, but validator not."]
  | Audience =>
      ["invalid JWT; missing expected audience %s.";
       "invalid JWT; token has audience set, but validator not."]
  end.

(** The outcome is the failure of rule [r]: a token-invalid error carrying
    one of the messages of [r]. *)
Definition fails_rule (r : rule) (out : result unit) : Prop :=
  exists fmt, In fmt (rule_fmts r) /\ raises_invalid fmt out.

(** No check before [r] failed. *)
Definition reaches (r : rule) (out : result unit) : Prop :=
  forall r', (rule_index r' < rule_index r)%nat -> ~ fails_rule r' out.

(** ** Policies and tokens of the examples *)

(** The keyword arguments [kw] with [ignore_issuer] replaced. *)
Definition set_ignore_issuer (b : bool) (kw : kwargs) : kwargs :=
  mk_kwargs (kw_expected_type_header kw) (kw_expected_issuer kw)
    (kw_expected_audience kw) (kw_ignore_type_header kw) b
    (kw_ignore_audiences kw) (kw_allow_missing_expiration kw)
    (kw_expect_issued_in_the_past kw) (kw_clock_skew kw) (kw_fixed_now kw).

(** The validator [new_validator()] builds from the defaults, and the one
    built with [ignore_issuer=True]. *)
Definition default_validator : JwtValidator.t :=
  JwtValidator.mk None None None false false false false false
    timedelta_zero None.
Definition ignore_issuer_validator : JwtValidator.t :=
  JwtValidator.mk None None None false true false false false
    timedelta_zero None.

Definition utc_timestamp (us : Z) : RawJwt.timestamp :=
  RawJwt.mk_timestamp us utc.

(** A token that expires at [exp] and carries nothing else. *)
Definition token_expiring (exp : Z) : RawJwt.t :=
  RawJwt.mk (Some (utc_timestamp exp)) None None None None None.

(** A token that expires at [exp] and names its issuer. *)
Definition token_issued_by (iss : string) (exp : Z) : RawJwt.t :=
  RawJwt.mk (Some (utc_timestamp exp)) None None None (Some iss) None.

(** Keyword arguments that set an expected value to the empty string and
    the matching ignore flag at once, one per claim. *)
Definition empty_type_header_and_ignore : kwargs :=
  mk_kwargs (Some "") None None true false false false false None None.
Definition empty_issuer_and_ignore : kwargs :=
  mk_kwargs None (Some "") None false true false false false None None.
Definition empty_audience_and_ignore : kwargs :=
  mk_kwargs None None (Some "") false false true false false None None.

(** Keyword arguments with a clock skew of minus one second, and the
    validator built from them. *)
Definition negative_skew_kwargs : kwargs :=
  mk_kwargs None None None false false false false false
    (Some (timedelta_seconds (-1))) None.
Definition negative_skew_validator : JwtValidator.t :=
  JwtValidator.mk None None None false false false false false
    (timedelta_seconds (-1)) None.

(** A reading of the clock used by the examples, in microseconds. *)
Definition example_time : Z := 1700000000000000.

Definition utc_datetime (us : Z) : datetime := mk_datetime us (Some utc).

(** [new_validator(fixed_now=T)] and the validator it builds. *)
Definition fixed_kwargs (T : Z) : kwargs :=
  mk_kwargs None None None false false false false false None
    (Some (utc_datetime T)).
Definition fixed_validator (T : Z) : JwtValidator.t :=
  JwtValidator.mk None None None false false false false false
    timedelta_zero (Some (utc_datetime T)).


(** [new_validator(expected_audience=a, fixed_now=T)]. *)
Definition audience_kwargs (a : string) (T : Z) : kwargs :=
  mk_kwargs None None (Some a) false false false false false None
    (Some (utc_datetime T)).
Definition audience_validator (a : string) (T : Z) : JwtValidator.t :=
  JwtValidator.mk None None (Some a) false false false false false
    timedelta_zero (Some (utc_datetime T)).

(** [new_validator(expected_issuer=i, fixed_now=T)]. *)
Definition issuer_kwargs (i : string) (T : Z) : kwargs :=
  mk_kwargs None (Some i) None false false false false false None
    (Some (utc_datetime T)).
Definition issuer_validator (i : string) (T : Z) : JwtValidator.t :=
  JwtValidator.mk None (Some i) None false false false false false
    timedelta_zero (Some (utc_datetime T)).

(** [new_validator(clock_skew=timedelta(minutes=5))]. *)
Definition five_minutes_kwargs : kwargs :=
  mk_kwargs None None None false false false false false
    (Some (timedelta_minutes 5)) None.
Definition five_minutes_validator : JwtValidator.t :=
  JwtValidator.mk None None None false false false false false
    (timedelta_minutes 5) None.



(** A token that expires at [exp] and is meant for [auds]. *)
Definition token_for (auds : list string) (exp : Z) : RawJwt.t :=
  RawJwt.mk (Some (utc_timestamp exp)) None None None None (Some auds).

(** ** Comparing policies and tokens *)

(** Two validators that agree on everything but [_fixed_now]. *)
Definition same_policy (v v' : JwtValidator.t) : Prop :=
  JwtValidator._expected_type_header v = JwtValidator._expected_type_header v' /\
  JwtValidator._expected_issuer v = JwtValidator._expected_issuer v' /\
  JwtValidator._expected_audience v = JwtValidator._expected_audience v' /\
  JwtValidator._ignore_type_header v = JwtValidator._ignore_type_header v' /\
  JwtValidator._ignore_issuer v = JwtValidator._ignore_issuer v' /\
  JwtValidator._ignore_audiences v = JwtValidator._ignore_audiences v' /\
  JwtValidator._allow_missing_expiration v =
    JwtValidator._allow_missing_expiration v' /\
  JwtValidator._expect_issued_in_the_past v =
    JwtValidator._expect_issued_in_the_past v' /\
  JwtValidator._clock_skew v = JwtValidator._clock_skew v'.


(** The token [t] with another issued-at claim, and with another audience
    claim. *)
Definition set_iat (iat : option RawJwt.timestamp) (t : RawJwt.t) : RawJwt.t :=
  RawJwt.mk (RawJwt._exp t) (RawJwt._nbf t) iat (RawJwt._typ t)
    (RawJwt._iss t) (RawJwt._aud t).
Definition set_aud (aud : option (list string)) (t : RawJwt.t) : RawJwt.t :=
  RawJwt.mk (RawJwt._exp t) (RawJwt._nbf t) (RawJwt._iat t) (RawJwt._typ t)
    (RawJwt._iss t) aud.

(** The pair of an expected value and its ignore flag that the constructor
    refuses: a non-empty expected string with the flag set. *)
Definition pair_conflicts (expected : option string) (ignore : bool) : Prop :=
  exists s, expected = Some s /\ s <> "" /\ ignore = true.



(** A token with an issuer and nothing else. *)
Definition token_untimed (iss : string) : RawJwt.t :=
  RawJwt.mk None None None None (Some iss) None.

(** ** Datetime arithmetic and ordering *)

Lemma instant_dt_sub d td : instant (dt_sub d td) = instant d - microseconds td.
Proof. unfold instant, dt_sub; cbn; lia. Qed.

Lemma instant_dt_add d td : instant (dt_add d td) = instant d + microseconds td.
Proof. unfold instant, dt_add; cbn; lia. Qed.

Lemma dt_le_aware ts now td h :
  is_aware now = true ->
  dt_le (RawJwt.to_datetime ts) (dt_sub now td) h =
  (Ok (ts_instant ts <=? instant now - microseconds td), h).
Proof.
  unfold is_aware, dt_le, dt_cmp, ts_instant. rewrite instant_dt_sub. cbn.
  destruct (tzinfo now); [reflexivity | discriminate].
Qed.

Lemma dt_gt_aware ts now td h :
  is_aware now = true ->
  dt_gt (RawJwt.to_datetime ts) (dt_add now td) h =
  (Ok (ts_instant ts >? instant now + microseconds td), h).
Proof.
  unfold is_aware, dt_gt, dt_cmp, ts_instant. rewrite instant_dt_add. cbn.
  destruct (tzinfo now); [reflexivity | discriminate].
Qed.

(** ** What the constructor establishes *)

Ltac case_guard :=
  lazymatch goal with
  | |- (if ?c then _ else _) = _ -> _ => destruct c eqn:?; [discriminate|]
  end.

Ltac unfold_truth :=
  cbv beta iota delta [truth truthy_optional truthy_timedelta truthy_bool
    truthy_datetime truthy_tzinfo truthy_str microseconds] in *.

Lemma init_inv kw v :
  JwtValidator.__init__ kw = Ok v ->
  JwtValidator._expected_type_header v = kw_expected_type_header kw /\
  JwtValidator._expected_issuer v = kw_expected_issuer kw /\
  JwtValidator._expected_audience v = kw_expected_audience kw /\
  JwtValidator._ignore_type_header v = kw_ignore_type_header kw /\
  JwtValidator._ignore_issuer v = kw_ignore_issuer kw /\
  JwtValidator._ignore_audiences v = kw_ignore_audiences kw /\
  JwtValidator._allow_missing_expiration v = kw_allow_missing_expiration kw /\
  JwtValidator._expect_issued_in_the_past v =
    kw_expect_issued_in_the_past kw /\
  JwtValidator._clock_skew v =
    match kw_clock_skew kw with Some cs => cs | None => timedelta_zero end /\
  JwtValidator._fixed_now v = kw_fixed_now kw.
Proof.
  unfold JwtValidator.__init__.
  do 3 case_guard.
  destruct (kw_clock_skew kw) as [[us]|]; unfold_truth; cbn.
  - destruct (Z.eqb us 0) eqn:E; cbn.
    + apply Z.eqb_eq in E; subst us.
      case_guard. intros H; inversion H; cbn; repeat split.
    + destruct (td_gtb _ _); cbn; [discriminate|].
      case_guard. intros H; inversion H; cbn; repeat split.
  - case_guard. intros H; inversion H; cbn; repeat split.
Qed.

Lemma init_fixed_now_aware kw v d :
  JwtValidator.__init__ kw = Ok v ->
  JwtValidator.fixed_now v = Some d ->
  is_aware d = true.
Proof.
  intros Hv Hd. unfold JwtValidator.fixed_now in Hd.
  destruct (init_inv kw v Hv) as (_ & _ & _ & _ & _ & _ & _ & _ & _ & Hfn).
  rewrite Hd in Hfn. revert Hv. unfold JwtValidator.__init__.
  do 3 case_guard.
  destruct (if truth (kw_clock_skew kw) then _ else _); [|discriminate].
  rewrite <- Hfn. unfold is_aware. unfold_truth. cbn.
  destruct (tzinfo d); [reflexivity | discriminate].
Qed.

Lemma now_of_aware kw v utc_now :
  new_validator kw = Ok v -> is_aware (now_of utc_now v) = true.
Proof.
  intros Hv. unfold now_of.
  destruct (JwtValidator.fixed_now v) as [d|] eqn:Hd.
  - exact (init_fixed_now_aware kw v d Hv Hd).
  - reflexivity.
Qed.

(** ** [validate] reports the first violated rule *)

Ltac run :=
  cbv -[dt_le dt_gt dt_sub dt_add instant ts_instant Z.leb Z.gtb Z.add Z.sub
        String.eqb existsb microseconds RawJwt.to_datetime datetime_now_utc].

Ltac done_if_raised :=
  lazymatch goal with
  | |- (Raise _, _) = _ => reflexivity
  | |- (Ok _, _) = _ => reflexivity
  | |- _ => idtac
  end.

Ltac split_on x := destruct x; run; done_if_raised.

Ltac split_cmp H :=
  lazymatch goal with
  | |- context [dt_le (RawJwt.to_datetime ?ts) (dt_sub ?n ?td) ?h] =>
      rewrite (dt_le_aware ts n td h H);
      destruct (ts_instant ts <=? instant n - microseconds td)
  | |- context [dt_gt (RawJwt.to_datetime ?ts) (dt_add ?n ?td) ?h] =>
      rewrite (dt_gt_aware ts n td h H);
      destruct (ts_instant ts >? instant n + microseconds td)
  end; run; done_if_raised.

Ltac split_eqb :=
  lazymatch goal with
  | |- context [String.eqb ?a ?b] => destruct (String.eqb a b)
  | |- context [existsb ?f ?l] => destruct (existsb f l)
  end; run; done_if_raised.

(** With an aware [now], the run of [validate] on the heap holding the
    validator and the token ends in the outcome of [spec_validate] and
    leaves the heap as it found it. *)
Lemma validate_body now v t utc_now :
  now_of utc_now v = now ->
  is_aware now = true ->
  validate utc_now (mk_heap v t) = (spec_validate now v t, mk_heap v t).
Proof.
  destruct v as [eth eis eau ith iis iau ame eiat sk fn].
  destruct t as [ex nb ia ty iss au].
  intros Hnow Haw.
  assert (Hfn : match fn with
                | Some d => d
                | None => datetime_now_utc utc_now
                end = now) by exact Hnow.
  clear Hnow.
  destruct fn as [d|]; subst now; run.
  all: split_on ex; [split_cmp Haw | split_on ame].
  all: split_on nb; [split_cmp Haw |].
  all: split_on eiat; [split_on ia; split_cmp Haw |].
  all: split_on eth; [split_on ty; split_eqb | split_on ty; [split_on ith |]].
  all: split_on eis; [split_on iss; split_eqb | split_on iss; [split_on iis |]].
  all: split_on eau; [split_on au; split_eqb | split_on au; split_on iau].
Qed.

Lemma run_validate_spec kw v utc_now t :
  new_validator kw = Ok v ->
  run_validate utc_now v t = spec_validate (now_of utc_now v) v t.
Proof.
  intros Hv. unfold run_validate.
  rewrite (validate_body (now_of utc_now v) v t utc_now eq_refl
             (now_of_aware kw v utc_now Hv)).
  reflexivity.
Qed.

(** ** The first violated rule *)

Lemma rule_index_order r : nth_error rule_order (rule_index r) = Some r.
Proof. destruct r; reflexivity. Qed.

Lemma reason_is_invalid v t r :
  exists args, reason v t r = JwtInvalidError (reason_fmt v t r) args.
Proof.
  unfold reason_fmt.
  destruct r; cbn; try (eexists; reflexivity).
  - destruct (JwtValidator.expected_type_header v), (RawJwt._typ t);
      eexists; reflexivity.
  - destruct (JwtValidator.expected_issuer v), (RawJwt._iss t);
      eexists; reflexivity.
  - destruct (JwtValidator.expected_audience v); eexists; reflexivity.
Qed.

Lemma first_violation_iff now v t r :
  first_violation now v t = Some r <->
  violated now v t r = true /\
  forall r', (rule_index r' < rule_index r)%nat -> violated now v t r' = false.
Proof.
  unfold first_violation, rule_order. cbn [find].
  destruct (violated now v t MissingExpiration) eqn:H0;
  [|destruct (violated now v t Expired) eqn:H1;
  [|destruct (violated now v t NotBefore) eqn:H2;
  [|destruct (violated now v t MissingIssuedAt) eqn:H3;
  [|destruct (violated now v t IssuedInFuture) eqn:H4;
  [|destruct (violated now v t TypeHeader) eqn:H5;
  [|destruct (violated now v t Issuer) eqn:H6;
  [|destruct (violated now v t Audience) eqn:H7]]]]]]].
  all: split;
    [ intros Heq;
      first [ discriminate Heq
            | injection Heq as <-; split;
              [ assumption
              | intros r' Hlt; destruct r'; cbn in Hlt;
                solve [assumption | lia] ] ]
    | intros [Hr Hbefore]; destruct r; try congruence;
      match goal with
      | Hv : violated _ _ _ ?r0 = true |- Some ?r0 = Some _ =>
          rewrite Hbefore in Hv by (cbn; lia); discriminate Hv
      end ].
Qed.

Lemma first_violation_none now v t :
  first_violation now v t = None <-> forall r, violated now v t r = false.
Proof.
  unfold first_violation. split.
  - intros Hnone r.
    destruct (violated now v t r) eqn:Hr; [|reflexivity].
    pose proof (find_none _ _ Hnone r) as Hf.
    rewrite Hf in Hr; [discriminate|].
    unfold rule_order; destruct r; cbn; tauto.
  - intros Hall.
    destruct (find (violated now v t) rule_order) as [r|] eqn:Hf; [|reflexivity].
    apply find_some in Hf. rewrite Hall in Hf. destruct Hf; discriminate.
Qed.

Lemma raises_spec fmt now v t :
  raises_invalid fmt (spec_validate now v t) <->
  exists r, first_violation now v t = Some r /\ reason_fmt v t r = fmt.
Proof.
  unfold raises_invalid, spec_validate.
  destruct (first_violation now v t) as [r|].
  - destruct (reason_is_invalid v t r) as [args0 Hr]. rewrite Hr. split.
    + intros [args [= <- _]]. exists r. split; reflexivity.
    + intros [r' [[= <-] <-]]. exists args0. reflexivity.
  - split.
    + intros [args Habs]. discriminate Habs.
    + intros [r [Habs _]]. discriminate Habs.
Qed.

Lemma reason_fmt_in v t r : In (reason_fmt v t r) (rule_fmts r).
Proof.
  unfold reason_fmt.
  destruct r; cbn; try tauto.
  - destruct (JwtValidator.expected_type_header v), (RawJwt._typ t); tauto.
  - destruct (JwtValidator.expected_issuer v), (RawJwt._iss t); tauto.
  - destruct (JwtValidator.expected_audience v); tauto.
Qed.


(** The rules report disjoint sets of messages. *)
Lemma rule_fmts_disjoint fmt r r' :
  In fmt (rule_fmts r) -> In fmt (rule_fmts r') -> r = r'.
Proof.
  destruct r, r'; cbn; intros H H'; try reflexivity; exfalso;
    repeat match goal with
           | H : _ \/ _ |- _ => destruct H
           | H : False |- _ => destruct H
           end; subst; discriminate.
Qed.

Lemma fails_rule_iff now v t r :
  fails_rule r (spec_validate now v t) <-> first_violation now v t = Some r.
Proof.
  unfold fails_rule. split.
  - intros [fmt [Hin Hraise]].
    apply raises_spec in Hraise. destruct Hraise as [r' [Hf Hfmt]].
    rewrite Hf. f_equal.
    apply (rule_fmts_disjoint fmt); [|exact Hin].
    rewrite <- Hfmt. apply reason_fmt_in.
  - intros Hf. exists (reason_fmt v t r). split; [apply reason_fmt_in|].
    apply raises_spec. exists r. split; [exact Hf | reflexivity].
Qed.

Lemma violated_first_before now v t r :
  violated now v t r = true ->
  exists r', first_violation now v t = Some r' /\
             (rule_index r' <= rule_index r)%nat.
Proof.
  intros Hr.
  destruct (first_violation now v t) as [r'|] eqn:Hf.
  - exists r'. split; [reflexivity|].
    apply first_violation_iff in Hf. destruct Hf as [_ Hbefore].
    destruct (Nat.le_gt_cases (rule_index r') (rule_index r)) as [Hle|Hgt];
      [exact Hle|].
    rewrite (Hbefore r Hgt) in Hr. discriminate Hr.
  - rewrite (proj1 (first_violation_none now v t) Hf r) in Hr. discriminate Hr.
Qed.

Lemma reaches_iff now v t r :
  reaches r (spec_validate now v t) <->
  forall r', (rule_index r' < rule_index r)%nat -> violated now v t r' = false.
Proof.
  unfold reaches. split.
  - intros Hreach r' Hlt.
    destruct (violated now v t r') eqn:Hr'; [exfalso | reflexivity].
    destruct (violated_first_before now v t r' Hr') as [r'' [Hf Hle]].
    apply (Hreach r''); [lia|]. apply fails_rule_iff. exact Hf.
  - intros Hbefore r' Hlt Hfail.
    apply fails_rule_iff, first_violation_iff in Hfail.
    destruct Hfail as [Hr' _]. rewrite (Hbefore r' Hlt) in Hr'. discriminate Hr'.
Qed.

(** A check that is reached fails exactly when its rule is violated. *)
Lemma reached_check now v t r :
  reaches r (spec_validate now v t) ->
  (fails_rule r (spec_validate now v t) <-> violated now v t r = true).
Proof.
  intros Hreach. rewrite fails_rule_iff, first_violation_iff.
  pose proof (proj1 (reaches_iff now v t r) Hreach) as Hbefore. tauto.
Qed.

Lemma accepted_iff now v t :
  spec_validate now v t = Ok tt <-> forall r, violated now v t r = false.
Proof.
  rewrite <- first_violation_none. unfold spec_validate.
  destruct (first_violation now v t); split; intros H;
    solve [discriminate H | reflexivity].
Qed.

(** ** Consequences used by the checks *)

Lemma fails_violated now v t r :
  fails_rule r (spec_validate now v t) -> violated now v t r = true.
Proof.
  intros Hfail. apply fails_rule_iff, first_violation_iff in Hfail.
  exact (proj1 Hfail).
Qed.


Lemma fails_outcome now v t r :
  fails_rule r (spec_validate now v t) ->
  spec_validate now v t = Raise (reason v t r).
Proof.
  intros Hfail. apply fails_rule_iff in Hfail.
  unfold spec_validate. rewrite Hfail. reflexivity.
Qed.


Lemma gtb_gt a b : (a >? b) = true <-> a > b.
Proof. rewrite Z.gtb_lt. lia. Qed.

Lemma str_in_iff a xs : existsb (String.eqb a) xs = true <-> In a xs.
Proof.
  rewrite existsb_exists. split.
  - intros [x [Hin Heq]]. apply String.eqb_eq in Heq. subst x. exact Hin.
  - intros Hin. exists a. split; [exact Hin | apply String.eqb_refl].
Qed.


(** ** The checks of [validate] *)




Lemma audience_rule_expected a ignore claim :
  audience_rule_violated (Some a) ignore claim = false <->
  exists auds, claim = Some auds /\ In a auds.
Proof.
  unfold audience_rule_violated. destruct claim as [auds|].
  - rewrite negb_false_iff, str_in_iff. split.
    + intros Hin. exists auds. split; [reflexivity | exact Hin].
    + intros [auds' [[= <-] Hin]]. exact Hin.
  - split; [discriminate | intros [auds [Habs _]]; discriminate Habs].
Qed.

(** Once the audience check is reached it is the last one: the token is
    accepted exactly when the audience rule holds. *)
Lemma audience_decides now v t :
  reaches Audience (spec_validate now v t) ->
  (spec_validate now v t = Ok tt <-> violated now v t Audience = false).
Proof.
  intros Hreach. rewrite accepted_iff. split.
  - intros Hall. apply Hall.
  - intros Ha r. destruct r; try exact Ha;
      apply (proj1 (reaches_iff _ _ _ _) Hreach); cbn; lia.
Qed.

(** C4. Audience: a policy expecting audience [a] lets a token past the
    audience check exactly when the token has an audience claim that
    contains [a]; containing other audiences as well does no harm, and a
    claim without [a] is reported as a missing expected audience. A policy
    expecting no audience fails a token exactly when it has an audience
    claim and audiences are not ignored. *)
Theorem audience_check kw v utc_now t :
  new_validator kw = Ok v ->
  let out := run_validate utc_now v t in
  (forall a, JwtValidator.expected_audience v = Some a ->
     reaches Audience out ->
     (~ fails_rule Audience out <->
        exists auds, RawJwt._aud t = Some auds /\ In a auds) /\
     (out = Ok tt <->
        exists auds, RawJwt._aud t = Some auds /\ In a auds) /\
     (fails_rule Audience out ->
        out = Raise (JwtInvalidError
                       "invalid JWT; missing expected audience %s."
                       [ArgStr a]))) /\
  (JwtValidator.expected_audience v = Some "svc-a" ->
     reaches Audience out ->
     (RawJwt._aud t = Some ["svc-a"; "svc-b"] -> out = Ok tt) /\
     (RawJwt._aud t = Some ["svc-b"] ->
        out = Raise (JwtInvalidError
                       "invalid JWT; missing expected audience %s."
                       [ArgStr "svc-a"]))) /\
  (JwtValidator.expected_audience v = None ->
     reaches Audience out ->
     (fails_rule Audience out <->
        RawJwt.has_audiences t = true /\
        JwtValidator.ignore_audiences v = false) /\
     (fails_rule Audience out ->
        out = Raise (JwtInvalidError
                       "invalid JWT; token has audience set, but validator not."
                       []))).
Proof.
  intros Hv out. subst out.
  rewrite (run_validate_spec kw v utc_now t Hv).
  set (now := now_of utc_now v).
  assert (Hexpected : forall a, JwtValidator.expected_audience v = Some a ->
     reaches Audience (spec_validate now v t) ->
     (~ fails_rule Audience (spec_validate now v t) <->
        exists auds, RawJwt._aud t = Some auds /\ In a auds) /\
     (spec_validate now v t = Ok tt <->
        exists auds, RawJwt._aud t = Some auds /\ In a auds) /\
     (fails_rule Audience (spec_validate now v t) ->
        spec_validate now v t =
        Raise (JwtInvalidError "invalid JWT; missing expected audience %s."
                 [ArgStr a]))).
  { intros a Ha Hreach. split; [|split].
    - rewrite (reached_check _ _ _ _ Hreach), not_true_iff_false. cbn.
      rewrite Ha. apply audience_rule_expected.
    - rewrite (audience_decides _ _ _ Hreach). cbn.
      rewrite Ha. apply audience_rule_expected.
    - intros Hfail. rewrite (fails_outcome _ _ _ _ Hfail). cbn.
      rewrite Ha. reflexivity. }
  split; [exact Hexpected|]. split.
  - intros Ha Hreach.
    destruct (Hexpected "svc-a" Ha Hreach) as (Hpass & Hok & Hmsg). split.
    + intros Haud. apply Hok. exists ["svc-a"; "svc-b"].
      split; [exact Haud | left; reflexivity].
    + intros Haud. apply Hmsg.
      destruct (violated now v t Audience) eqn:Hviol.
      * apply reached_check; assumption.
      * exfalso. cbn in Hviol. rewrite Ha in Hviol.
        apply audience_rule_expected in Hviol.
        destruct Hviol as [auds [Heq Hin]]. rewrite Haud in Heq.
        injection Heq as <-. destruct Hin as [Hin|[]]. discriminate Hin.
  - intros Ha Hreach. split.
    + rewrite (reached_check _ _ _ _ Hreach). cbn. rewrite Ha.
      unfold audience_rule_violated, RawJwt.has_audiences.
      rewrite andb_true_iff, negb_true_iff. reflexivity.
    + intros Hfail. rewrite (fails_outcome _ _ _ _ Hfail). cbn.
      rewrite Ha. reflexivity.
Qed.

(** The expect-or-ignore rule on a string claim, spelled out. *)
Lemma string_rule_expected e ignore claim :
  string_rule_violated (Some e) ignore claim = true <-> claim <> Some e.
Proof.
  unfold string_rule_violated. destruct claim as [c|].
  - destruct (String.eqb_spec e c) as [->|Hne]; cbn; split;
      solve [congruence | reflexivity | intros _; congruence].
  - split; [intros _; discriminate | reflexivity].
Qed.

Lemma string_rule_unexpected ignore claim :
  string_rule_violated None ignore claim = true <->
  is_not_None claim = true /\ ignore = false.
Proof.
  unfold string_rule_violated.
  rewrite andb_true_iff, negb_true_iff. reflexivity.
Qed.

(** Relaxing [ignore_issuer] changes no rule but the issuer's. *)
Lemma set_ignore_issuer_rules kw v v' b utc_now t r :
  new_validator kw = Ok v ->
  new_validator (set_ignore_issuer b kw) = Ok v' ->
  now_of utc_now v' = now_of utc_now v /\
  (r <> Issuer ->
   violated (now_of utc_now v') v' t r = violated (now_of utc_now v) v t r).
Proof.
  intros Hv Hv'.
  apply init_inv in Hv. apply init_inv in Hv'.
  destruct v, v'. cbn in Hv, Hv'.
  destruct Hv as (-> & -> & -> & -> & -> & -> & -> & -> & -> & ->).
  destruct Hv' as (-> & -> & -> & -> & -> & -> & -> & -> & -> & ->).
  split; [reflexivity|].
  intros Hne. destruct r; try reflexivity. congruence.
Qed.

(** C5. Type header and issuer: with an expected value the check fails
    exactly when the token's claim is absent or is another string; with no
    expected value it fails exactly when the claim is present and is not
    ignored. A token issued by "acme" is rejected, for having an issuer,
    by a policy that neither expects nor ignores issuers, and the same
    policy with [ignore_issuer] set does not hold the issuer against it. *)
Theorem type_header_and_issuer_checks :
  (forall kw v utc_now t,
     new_validator kw = Ok v ->
     let out := run_validate utc_now v t in
     (forall e, JwtValidator.expected_type_header v = Some e ->
        reaches TypeHeader out ->
        (fails_rule TypeHeader out <-> RawJwt._typ t <> Some e)) /\
     (JwtValidator.expected_type_header v = None ->
        reaches TypeHeader out ->
        (fails_rule TypeHeader out <->
           RawJwt.has_type_header t = true /\
           JwtValidator.ignore_type_header v = false)) /\
     (forall e, JwtValidator.expected_issuer v = Some e ->
        reaches Issuer out ->
        (fails_rule Issuer out <-> RawJwt._iss t <> Some e)) /\
     (JwtValidator.expected_issuer v = None ->
        reaches Issuer out ->
        (fails_rule Issuer out <->
           RawJwt.has_issuer t = true /\
           JwtValidator.ignore_issuer v = false))) /\
  (forall kw v v' utc_now t,
     new_validator kw = Ok v ->
     new_validator (set_ignore_issuer true kw) = Ok v' ->
     kw_expected_issuer kw = None ->
     kw_ignore_issuer kw = false ->
     RawJwt._iss t = Some "acme" ->
     reaches Issuer (run_validate utc_now v t) ->
     run_validate utc_now v t =
       Raise (JwtInvalidError
                "invalid JWT; token has issuer set, but validator not." []) /\
     ~ fails_rule Issuer (run_validate utc_now v' t) /\
     (run_validate utc_now v' t = Ok tt <->
        ~ fails_rule Audience (run_validate utc_now v' t))) /\
  (forall utc_now,
     new_validator default_kwargs = Ok default_validator /\
     new_validator (set_ignore_issuer true default_kwargs) =
       Ok ignore_issuer_validator /\
     run_validate utc_now default_validator
       (token_issued_by "acme" (utc_now + 1000000)) =
       Raise (JwtInvalidError
                "invalid JWT; token has issuer set, but validator not." []) /\
     run_validate utc_now ignore_issuer_validator
       (token_issued_by "acme" (utc_now + 1000000)) = Ok tt).
Proof.
  split; [|split].
  - intros kw v utc_now t Hv out. subst out.
    rewrite (run_validate_spec kw v utc_now t Hv).
    split; [|split; [|split]].
    + intros e He Hreach. rewrite (reached_check _ _ _ _ Hreach). cbn.
      rewrite He. apply string_rule_expected.
    + intros He Hreach. rewrite (reached_check _ _ _ _ Hreach). cbn.
      rewrite He. apply string_rule_unexpected.
    + intros e He Hreach. rewrite (reached_check _ _ _ _ Hreach). cbn.
      rewrite He. apply string_rule_expected.
    + intros He Hreach. rewrite (reached_check _ _ _ _ Hreach). cbn.
      rewrite He. apply string_rule_unexpected.
  - intros kw v v' utc_now t Hv Hv' Hexp Hign Hiss.
    rewrite (run_validate_spec kw v utc_now t Hv).
    rewrite (run_validate_spec _ v' utc_now t Hv').
    intros Hreach.
    pose proof (init_inv _ _ Hv) as Hi.
    pose proof (init_inv _ _ Hv') as Hi'.
    destruct Hi as (_ & Hei & _ & _ & Hii & _).
    destruct Hi' as (_ & Hei' & _ & _ & Hii' & _).
    cbn in Hei', Hii'. rewrite Hexp in Hei, Hei'. rewrite Hign in Hii.
    assert (Hissuer : violated (now_of utc_now v) v t Issuer = true).
    { cbn. unfold JwtValidator.expected_issuer, JwtValidator.ignore_issuer.
      rewrite Hei, Hii, Hiss. reflexivity. }
    assert (Hissuer' : violated (now_of utc_now v') v' t Issuer = false).
    { cbn. unfold JwtValidator.expected_issuer, JwtValidator.ignore_issuer.
      rewrite Hei', Hii', Hiss. reflexivity. }
    assert (Hsame : forall r, r <> Issuer ->
              violated (now_of utc_now v') v' t r =
              violated (now_of utc_now v) v t r).
    { intros r. apply (set_ignore_issuer_rules kw v v' true utc_now t r Hv Hv'). }
    split; [|split].
    + rewrite (fails_outcome _ _ _ Issuer).
      * cbn. unfold JwtValidator.expected_issuer. rewrite Hei. reflexivity.
      * apply reached_check; assumption.
    + intros Hfail. apply fails_violated in Hfail. congruence.
    + assert (Hreach' : reaches Audience
                          (spec_validate (now_of utc_now v') v' t)).
      { apply reaches_iff. intros r Hlt.
        destruct r; cbn in Hlt; try lia; try exact Hissuer';
          (rewrite Hsame by discriminate;
           apply (proj1 (reaches_iff _ _ _ _) Hreach); cbn; lia). }
      rewrite (reached_check _ _ _ _ Hreach'), accepted_iff. split.
      * intros Hall. rewrite Hall. discriminate.
      * intros Haud r.
        destruct (violated (now_of utc_now v') v' t Audience) eqn:Ha;
          [congruence|].
        destruct r; try exact Ha;
          apply (proj1 (reaches_iff _ _ _ _) Hreach'); cbn; lia.
  - intros utc_now.
    split; [reflexivity|]. split; [reflexivity|].
    rewrite (run_validate_spec default_kwargs default_validator _ _ eq_refl).
    rewrite (run_validate_spec (set_ignore_issuer true default_kwargs)
               ignore_issuer_validator _ _ eq_refl).
    unfold spec_validate, first_violation. cbn.
    unfold ts_instant, instant. cbn.
    replace (utc_now + 1000000 - 0 <=? utc_now - 0 - 0) with false
      by (symmetry; apply Z.leb_gt; lia).
    split; reflexivity.
Qed.

(** C10. An expected value that is the empty string is an expectation: the
    presence accessor of the built policy answers true, the issuer check
    then fails every token whose issuer is absent or is not the empty
    string and passes only a token whose issuer is the empty string; the
    type header and the audience are treated alike. *)
Theorem empty_expected_value_honored kw v utc_now t :
  new_validator kw = Ok v ->
  let out := run_validate utc_now v t in
  (kw_expected_issuer kw = Some "" ->
     JwtValidator.has_expected_issuer v = true /\
     (reaches Issuer out ->
        (fails_rule Issuer out <-> RawJwt._iss t <> Some "") /\
        (~ fails_rule Issuer out <-> RawJwt._iss t = Some ""))) /\
  (kw_expected_type_header kw = Some "" ->
     JwtValidator.has_expected_type_header v = true /\
     (reaches TypeHeader out ->
        (fails_rule TypeHeader out <-> RawJwt._typ t <> Some "") /\
        (~ fails_rule TypeHeader out <-> RawJwt._typ t = Some ""))) /\
  (kw_expected_audience kw = Some "" ->
     JwtValidator.has_expected_audience v = true /\
     (reaches Audience out ->
        (~ fails_rule Audience out <->
           exists auds, RawJwt._aud t = Some auds /\ In "" auds))).
Proof.
  intros Hv out. subst out.
  rewrite (run_validate_spec kw v utc_now t Hv).
  destruct (init_inv _ _ Hv) as (Hth & His & Hau & _).
  split; [|split].
  - intros Hkw. rewrite Hkw in His. split.
    + unfold JwtValidator.has_expected_issuer. rewrite His. reflexivity.
    + intros Hreach.
      assert (Hfail : fails_rule Issuer (spec_validate (now_of utc_now v) v t)
                      <-> RawJwt._iss t <> Some "").
      { rewrite (reached_check _ _ _ _ Hreach). cbn.
        unfold JwtValidator.expected_issuer. rewrite His.
        apply string_rule_expected. }
      split; [exact Hfail|]. rewrite Hfail.
      destruct (RawJwt._iss t) as [[|c s]|]; split; intros H;
        solve [reflexivity | discriminate H | exfalso; apply H; discriminate
              | intros Habs; discriminate Habs | congruence].
  - intros Hkw. rewrite Hkw in Hth. split.
    + unfold JwtValidator.has_expected_type_header. rewrite Hth. reflexivity.
    + intros Hreach.
      assert (Hfail :
        fails_rule TypeHeader (spec_validate (now_of utc_now v) v t)
        <-> RawJwt._typ t <> Some "").
      { rewrite (reached_check _ _ _ _ Hreach). cbn.
        unfold JwtValidator.expected_type_header. rewrite Hth.
        apply string_rule_expected. }
      split; [exact Hfail|]. rewrite Hfail.
      destruct (RawJwt._typ t) as [[|c s]|]; split; intros H;
        solve [reflexivity | discriminate H | exfalso; apply H; discriminate
              | intros Habs; discriminate Habs | congruence].
  - intros Hkw. rewrite Hkw in Hau. split.
    + unfold JwtValidator.has_expected_audience. rewrite Hau. reflexivity.
    + intros Hreach.
      rewrite (reached_check _ _ _ _ Hreach), not_true_iff_false. cbn.
      unfold JwtValidator.expected_audience. rewrite Hau.
      apply audience_rule_expected.
Qed.

(** ** The constructor *)

Ltac guard_or_raise :=
  lazymatch goal with
  | |- exists msg, (if ?c then Raise (ValueError _) else _) = _ =>
      destruct c eqn:?; [eexists; reflexivity|]
  end.

(** A non-empty expected value together with its ignore flag is refused. *)
Lemma conflicting_pair_rejected kw :
  (exists s, kw_expected_type_header kw = Some s /\ s <> "" /\
             kw_ignore_type_header kw = true) \/
  (exists s, kw_expected_issuer kw = Some s /\ s <> "" /\
             kw_ignore_issuer kw = true) \/
  (exists s, kw_expected_audience kw = Some s /\ s <> "" /\
             kw_ignore_audiences kw = true) ->
  exists msg, new_validator kw = Raise (ValueError msg).
Proof.
  unfold new_validator, JwtValidator.__init__.
  intros [[s (Hs & Hne & Hi)] | [[s (Hs & Hne & Hi)] | [s (Hs & Hne & Hi)]]].
  - rewrite Hs, Hi. destruct s; [congruence|]. eexists; reflexivity.
  - guard_or_raise.
    rewrite Hs, Hi. destruct s; [congruence|]. eexists; reflexivity.
  - do 2 guard_or_raise.
    rewrite Hs, Hi. destruct s; [congruence|]. eexists; reflexivity.
Qed.

(** C6. With the empty string as the expected value and the matching
    ignore flag set, the constructor returns a validator, and that
    validator reports both the expectation and the ignore flag as set. *)
Theorem empty_expected_and_ignore_constructs :
  (exists v, new_validator empty_type_header_and_ignore = Ok v /\
             JwtValidator.has_expected_type_header v = true /\
             JwtValidator.ignore_type_header v = true) /\
  (exists v, new_validator empty_issuer_and_ignore = Ok v /\
             JwtValidator.has_expected_issuer v = true /\
             JwtValidator.ignore_issuer v = true) /\
  (exists v, new_validator empty_audience_and_ignore = Ok v /\
             JwtValidator.has_expected_audience v = true /\
             JwtValidator.ignore_audiences v = true).
Proof.
  repeat split; eexists; repeat split; reflexivity.
Qed.

(** C7, the upper bound. A clock skew above ten minutes is refused by the
    constructor; a constructed policy has a clock skew of at most ten
    minutes, zero when none was given and the given one otherwise, so
    it is non-negative whenever the given one was. *)
Theorem clock_skew_bound kw :
  microseconds _MAX_CLOCK_SKEW = 10 * 60 * 1000000 /\
  (forall cs, kw_clock_skew kw = Some cs ->
     microseconds cs > microseconds _MAX_CLOCK_SKEW ->
     exists msg, new_validator kw = Raise (ValueError msg)) /\
  (forall v, new_validator kw = Ok v ->
     microseconds (JwtValidator.clock_skew v) <= microseconds _MAX_CLOCK_SKEW /\
     (kw_clock_skew kw = None ->
        JwtValidator.clock_skew v = timedelta_zero) /\
     (forall cs, kw_clock_skew kw = Some cs ->
        JwtValidator.clock_skew v = cs) /\
     ((forall cs, kw_clock_skew kw = Some cs -> 0 <= microseconds cs) ->
        0 <= microseconds (JwtValidator.clock_skew v))).
Proof.
  split; [reflexivity|]. split.
  - intros [us] Hcs Hgt. cbn in Hgt.
    unfold new_validator, JwtValidator.__init__.
    do 3 guard_or_raise.
    rewrite Hcs. unfold_truth. cbn.
    replace (us =? 0) with false by (symmetry; apply Z.eqb_neq; lia).
    unfold td_gtb. cbn.
    replace (us >? 600000000) with true by (symmetry; apply gtb_gt; lia).
    eexists; reflexivity.
  - intros v Hv. pose proof (init_inv kw v Hv) as Hinv.
    destruct Hinv as (_ & _ & _ & _ & _ & _ & _ & _ & Hskew & _).
    unfold JwtValidator.clock_skew. rewrite Hskew.
    assert (Hmax : forall cs, kw_clock_skew kw = Some cs ->
                     microseconds cs <= microseconds _MAX_CLOCK_SKEW).
    { intros [us] Hcs. revert Hv.
      unfold new_validator, JwtValidator.__init__.
      do 3 case_guard.
      rewrite Hcs. unfold_truth. cbn.
      destruct (us =? 0) eqn:Hz; [apply Z.eqb_eq in Hz; lia|].
      unfold td_gtb. cbn.
      destruct (us >? 600000000) eqn:Hgt; [discriminate|].
      intros _. cbn. rewrite Z.gtb_ltb in Hgt.
      apply Z.ltb_ge in Hgt. exact Hgt. }
    destruct (kw_clock_skew kw) as [cs|] eqn:Hcs.
    + split; [apply Hmax; reflexivity|]. split; [discriminate|].
      split; [intros cs' [= <-]; reflexivity|].
      intros Hpos. apply Hpos. reflexivity.
    + cbn. split; [lia|]. split; [reflexivity|].
      split; [discriminate|]. intros _. lia.
Qed.

(** C7, no lower bound: a clock skew of minus one second is accepted, and
    the accessor of the policy returns it, a negative duration. *)
Lemma negative_clock_skew_accepted :
  new_validator negative_skew_kwargs = Ok negative_skew_validator /\
  microseconds (JwtValidator.clock_skew negative_skew_validator) = -1000000 /\
  ~ (0 <= microseconds (JwtValidator.clock_skew negative_skew_validator)).
Proof.
  split; [reflexivity|]. split; [reflexivity|].
  cbn. lia.
Qed.


(** C9. With [fixed_now] set the outcome of [validate] does not depend on
    the clock: a second call, at another clock reading, on the heap the
    first call leaves behind ends in the same outcome, and both calls leave
    the validator and the token as they were. *)
Theorem validate_deterministic_with_fixed_now kw v t c1 c2 :
  new_validator kw = Ok v ->
  JwtValidator.has_fixed_now v = true ->
  let h := mk_heap v t in
  fst (validate c2 (snd (validate c1 h))) = fst (validate c1 h) /\
  snd (validate c1 h) = h /\
  snd (validate c2 (snd (validate c1 h))) = h /\
  run_validate c1 v t = run_validate c2 v t.
Proof.
  intros Hv Hfixed h. subst h.
  assert (Hnow : now_of c2 v = now_of c1 v).
  { unfold now_of, JwtValidator.fixed_now.
    unfold JwtValidator.has_fixed_now in Hfixed.
    destruct (JwtValidator._fixed_now v); [reflexivity | discriminate]. }
  pose proof (validate_body (now_of c1 v) v t c1 eq_refl
                (now_of_aware kw v c1 Hv)) as H1.
  pose proof (validate_body (now_of c1 v) v t c2 Hnow
                (now_of_aware kw v c1 Hv)) as H2.
  unfold run_validate. rewrite H1. cbn [fst snd]. rewrite H2. cbn [fst snd].
  repeat split.
Qed.

(** ** The checks at work *)

(** On a concrete outcome, no check before the one at hand has failed. *)
Ltac reach_by_eval :=
  let r := fresh "r" in
  let Hlt := fresh "Hlt" in
  let fmt := fresh "fmt" in
  let Hin := fresh "Hin" in
  let args := fresh "args" in
  let Hraise := fresh "Hraise" in
  intros r Hlt [fmt [Hin [args Hraise]]];
  vm_compute in Hraise;
  try discriminate Hraise;
  try (injection Hraise as <- <-);
  destruct r; cbn in Hlt; try lia;
  cbn in Hin; intuition discriminate.




(** The expected audience among two is accepted; another audience alone is
    reported as a missing expected audience. *)
Lemma audience_check_witness :
  run_validate 0 (audience_validator "svc-a" example_time)
    (token_for ["svc-a"; "svc-b"] (example_time + 1)) = Ok tt /\
  run_validate 0 (audience_validator "svc-a" example_time)
    (token_for ["svc-b"] (example_time + 1)) =
  Raise (JwtInvalidError "invalid JWT; missing expected audience %s."
           [ArgStr "svc-a"]).
Proof.
  split.
  - apply (proj1 (proj1 (proj2
             (audience_check (audience_kwargs "svc-a" example_time)
                (audience_validator "svc-a" example_time) 0
                (token_for ["svc-a"; "svc-b"] (example_time + 1)) eq_refl))
             eq_refl ltac:(reach_by_eval))).
    reflexivity.
  - apply (proj2 (proj1 (proj2
             (audience_check (audience_kwargs "svc-a" example_time)
                (audience_validator "svc-a" example_time) 0
                (token_for ["svc-b"] (example_time + 1)) eq_refl))
             eq_refl ltac:(reach_by_eval))).
    reflexivity.
Defined.

(** The default policy rejects a token issued by acme; with [ignore_issuer]
    the issuer check lets it pass. *)
Lemma type_header_and_issuer_checks_witness :
  run_validate example_time default_validator
    (token_issued_by "acme" (example_time + 1000000)) =
  Raise (JwtInvalidError
           "invalid JWT; token has issuer set, but validator not." []) /\
  ~ fails_rule Issuer
      (run_validate example_time ignore_issuer_validator
         (token_issued_by "acme" (example_time + 1000000))).
Proof.
  destruct (proj1 (proj2 type_header_and_issuer_checks)
              default_kwargs default_validator ignore_issuer_validator
              example_time (token_issued_by "acme" (example_time + 1000000))
              eq_refl eq_refl eq_refl eq_refl eq_refl ltac:(reach_by_eval))
    as (Hrejected & Hrelaxed & _).
  split; [exact Hrejected | exact Hrelaxed].
Defined.

(** With the empty string expected as issuer, a token issued by the empty
    string passes the issuer check and one issued by acme fails it. *)
Lemma empty_expected_value_honored_witness :
  JwtValidator.has_expected_issuer (issuer_validator "" example_time) = true /\
  ~ fails_rule Issuer
      (run_validate 0 (issuer_validator "" example_time)
         (token_issued_by "" (example_time + 1))) /\
  fails_rule Issuer
    (run_validate 0 (issuer_validator "" example_time)
       (token_issued_by "acme" (example_time + 1))).
Proof.
  split; [|split].
  - apply (proj1 (proj1
             (empty_expected_value_honored (issuer_kwargs "" example_time)
                (issuer_validator "" example_time) 0
                (token_issued_by "" (example_time + 1)) eq_refl)
             eq_refl)).
  - apply (proj2 (proj2 (proj1
             (empty_expected_value_honored (issuer_kwargs "" example_time)
                (issuer_validator "" example_time) 0
                (token_issued_by "" (example_time + 1)) eq_refl)
             eq_refl) ltac:(reach_by_eval))).
    reflexivity.
  - apply (proj1 (proj2 (proj1
             (empty_expected_value_honored (issuer_kwargs "" example_time)
                (issuer_validator "" example_time) 0
                (token_issued_by "acme" (example_time + 1)) eq_refl)
             eq_refl) ltac:(reach_by_eval))).
    discriminate.
Defined.

(** Five minutes of skew are kept, eleven are refused. *)
Lemma clock_skew_bound_witness :
  microseconds (JwtValidator.clock_skew five_minutes_validator) <=
    microseconds _MAX_CLOCK_SKEW /\
  0 <= microseconds (JwtValidator.clock_skew five_minutes_validator) /\
  exists msg,
    new_validator
      (mk_kwargs None None None false false false false false
         (Some (timedelta_minutes 11)) None) = Raise (ValueError msg).
Proof.
  destruct (proj2 (proj2 (clock_skew_bound five_minutes_kwargs))
              five_minutes_validator eq_refl) as (Hmax & _ & _ & Hpos).
  split; [exact Hmax|]. split.
  - apply Hpos. intros cs [= <-]. cbn. lia.
  - apply (proj1 (proj2 (clock_skew_bound
             (mk_kwargs None None None false false false false false
                (Some (timedelta_minutes 11)) None)))
             (timedelta_minutes 11) eq_refl).
    reflexivity.
Defined.


(** At a fixed [now], two readings of the clock give one outcome. *)
Lemma validate_deterministic_with_fixed_now_witness :
  run_validate 0 (fixed_validator example_time)
    (token_expiring (example_time + 1)) =
  run_validate (example_time + 2) (fixed_validator example_time)
    (token_expiring (example_time + 1)).
Proof.
  apply (validate_deterministic_with_fixed_now (fixed_kwargs example_time)
           (fixed_validator example_time)
           (token_expiring (example_time + 1)) 0 (example_time + 2)
           eq_refl eq_refl).
Defined.

(** ** More on the constructor *)

Lemma truth_and_ignore expected ignore :
  truth expected && truth ignore = true <-> pair_conflicts expected ignore.
Proof.
  unfold pair_conflicts. unfold_truth. split.
  - destruct expected as [[|c s]|]; cbn; try discriminate.
    intros Hi. exists (String c s). repeat split; [discriminate | exact Hi].
  - intros [s (-> & Hne & ->)]. destruct s; [congruence | reflexivity].
Qed.

Lemma truth_and_ignore_false expected ignore :
  truth expected && truth ignore = false <-> ~ pair_conflicts expected ignore.
Proof.
  rewrite <- truth_and_ignore. symmetry. apply not_true_iff_false.
Qed.

(** X1. The constructor succeeds exactly when no non-empty expected value
    comes with its ignore flag, the clock skew, if given, is at most ten
    minutes, and [fixed_now], if given, has a [tzinfo]. *)
Theorem constructor_succeeds_iff kw :
  (exists v, new_validator kw = Ok v) <->
  ~ pair_conflicts (kw_expected_type_header kw) (kw_ignore_type_header kw) /\
  ~ pair_conflicts (kw_expected_issuer kw) (kw_ignore_issuer kw) /\
  ~ pair_conflicts (kw_expected_audience kw) (kw_ignore_audiences kw) /\
  (forall cs, kw_clock_skew kw = Some cs ->
     microseconds cs <= microseconds _MAX_CLOCK_SKEW) /\
  (forall d, kw_fixed_now kw = Some d -> tzinfo d <> None).
Proof.
  rewrite <- !truth_and_ignore_false.
  unfold new_validator, JwtValidator.__init__.
  destruct (truth (kw_expected_type_header kw) && _);
    [split; [intros [v Hv]; discriminate Hv | intros [Habs _]; discriminate Habs]|].
  destruct (truth (kw_expected_issuer kw) && _);
    [split; [intros [v Hv]; discriminate Hv
            | intros (_ & Habs & _); discriminate Habs]|].
  destruct (truth (kw_expected_audience kw) && _);
    [split; [intros [v Hv]; discriminate Hv
            | intros (_ & _ & Habs & _); discriminate Habs]|].
  assert (Hfixed : forall cs0,
    (exists v,
       (if truth (kw_fixed_now kw) &&
           negb (truth match kw_fixed_now kw with
                       | Some d => tzinfo d
                       | None => None
                       end)
        then Raise (ValueError "fixed_now without tzinfo")
        else Ok (JwtValidator.mk (kw_expected_type_header kw)
                   (kw_expected_issuer kw) (kw_expected_audience kw)
                   (kw_ignore_type_header kw) (kw_ignore_issuer kw)
                   (kw_ignore_audiences kw) (kw_allow_missing_expiration kw)
                   (kw_expect_issued_in_the_past kw) cs0 (kw_fixed_now kw)))
       = Ok v) <->
    (forall d, kw_fixed_now kw = Some d -> tzinfo d <> None)).
  { intros cs0. unfold_truth.
    destruct (kw_fixed_now kw) as [d|]; cbn.
    - destruct (tzinfo d) as [tz|] eqn:Htz; cbn; split.
      + intros _ d' [= <-]. rewrite Htz. discriminate.
      + intros _. eexists; reflexivity.
      + intros [v Hv]. discriminate Hv.
      + intros Habs. exfalso. apply (Habs d); [reflexivity | exact Htz].
    - split; [intros _ d Habs; discriminate Habs | intros _; eexists; reflexivity]. }
  destruct (kw_clock_skew kw) as [[us]|]; unfold_truth; cbn.
  - destruct (us =? 0) eqn:Hz; cbn.
    + apply Z.eqb_eq in Hz. subst us.
      fold (@truth _ (@truthy_optional _ truthy_datetime) (kw_fixed_now kw)).
      rewrite (Hfixed timedelta_zero). split.
      * intros Hd. repeat split; try exact Hd.
        intros cs [= <-]. cbn. lia.
      * intros (_ & _ & _ & _ & Hd). exact Hd.
    + unfold td_gtb. cbn. destruct (us >? 600000000) eqn:Hgt; cbn.
      * split; [intros [v Hv]; discriminate Hv|].
        intros (_ & _ & _ & Hmax & _).
        specialize (Hmax _ eq_refl). cbn in Hmax.
        apply gtb_gt in Hgt. lia.
      * fold (@truth _ (@truthy_optional _ truthy_datetime) (kw_fixed_now kw)).
        rewrite (Hfixed (mk_timedelta us)). split.
        -- intros Hd. repeat split; try exact Hd.
           intros cs [= <-]. cbn. rewrite Z.gtb_ltb in Hgt.
           apply Z.ltb_ge in Hgt. exact Hgt.
        -- intros (_ & _ & _ & _ & Hd). exact Hd.
  - fold (@truth _ (@truthy_optional _ truthy_datetime) (kw_fixed_now kw)).
    rewrite (Hfixed timedelta_zero). split.
    + intros Hd. repeat split; try exact Hd. intros cs Habs. discriminate Habs.
    + intros (_ & _ & _ & _ & Hd). exact Hd.
Qed.

(** X2. What was passed to the constructor is what the accessors of the
    built validator return: the expected values with their presence, the
    flags, [fixed_now] with its presence, and the clock skew, which is zero
    when none was given. *)
Theorem accessors_return_arguments kw v :
  new_validator kw = Ok v ->
  JwtValidator.expected_type_header v = kw_expected_type_header kw /\
  JwtValidator.has_expected_type_header v =
    is_not_None (kw_expected_type_header kw) /\
  JwtValidator.expected_issuer v = kw_expected_issuer kw /\
  JwtValidator.has_expected_issuer v = is_not_None (kw_expected_issuer kw) /\
  JwtValidator.expected_audience v = kw_expected_audience kw /\
  JwtValidator.has_expected_audience v =
    is_not_None (kw_expected_audience kw) /\
  JwtValidator.ignore_type_header v = kw_ignore_type_header kw /\
  JwtValidator.ignore_issuer v = kw_ignore_issuer kw /\
  JwtValidator.ignore_audiences v = kw_ignore_audiences kw /\
  JwtValidator.allow_missing_expiration v = kw_allow_missing_expiration kw /\
  JwtValidator.expect_issued_in_the_past v =
    kw_expect_issued_in_the_past kw /\
  JwtValidator.clock_skew v =
    match kw_clock_skew kw with Some cs => cs | None => timedelta_zero end /\
  JwtValidator.fixed_now v = kw_fixed_now kw /\
  JwtValidator.has_fixed_now v = is_not_None (kw_fixed_now kw).
Proof.
  intros Hv. apply init_inv in Hv.
  destruct Hv as (H1 & H2 & H3 & H4 & H5 & H6 & H7 & H8 & H9 & H10).
  unfold JwtValidator.expected_type_header,
    JwtValidator.has_expected_type_header, JwtValidator.expected_issuer,
    JwtValidator.has_expected_issuer, JwtValidator.expected_audience,
    JwtValidator.has_expected_audience, JwtValidator.ignore_type_header,
    JwtValidator.ignore_issuer, JwtValidator.ignore_audiences,
    JwtValidator.allow_missing_expiration,
    JwtValidator.expect_issued_in_the_past, JwtValidator.clock_skew,
    JwtValidator.fixed_now, JwtValidator.has_fixed_now.
  rewrite H1, H2, H3, H4, H5, H6, H7, H8, H9, H10.
  repeat split.
Qed.

(** X3. The constructor reports the first guard that fires, in the order
    type header, issuer, audience, clock skew, [fixed_now]: a later
    complaint is reported only when no earlier one applies. *)
Theorem constructor_error_order kw :
  let th :=
    pair_conflicts (kw_expected_type_header kw) (kw_ignore_type_header kw) in
  let iss := pair_conflicts (kw_expected_issuer kw) (kw_ignore_issuer kw) in
  let aud :=
    pair_conflicts (kw_expected_audience kw) (kw_ignore_audiences kw) in
  let skew := exists cs, kw_clock_skew kw = Some cs /\
                microseconds cs > microseconds _MAX_CLOCK_SKEW in
  let naive := exists d, kw_fixed_now kw = Some d /\ tzinfo d = None in
  (th ->
   new_validator kw =
   Raise (ValueError
     "expected_type_header and ignore_type_header cannot be used together")) /\
  (~ th -> iss ->
   new_validator kw =
   Raise (ValueError
     "expected_issuer and ignore_issuer cannot be used together")) /\
  (~ th -> ~ iss -> aud ->
   new_validator kw =
   Raise (ValueError
     "expected_audience and ignore_audiences cannot be used together")) /\
  (~ th -> ~ iss -> ~ aud -> skew ->
   new_validator kw =
   Raise (ValueError "clock skew too large, max is 10 minutes")) /\
  (~ th -> ~ iss -> ~ aud -> ~ skew -> naive ->
   new_validator kw = Raise (ValueError "fixed_now without tzinfo")).
Proof.
  intros th iss aud skew naive. subst th iss aud skew naive.
  rewrite <- !truth_and_ignore_false, <- !truth_and_ignore.
  unfold new_validator, JwtValidator.__init__.
  split; [intros ->; reflexivity|].
  split; [intros -> ->; reflexivity|].
  split; [intros -> -> ->; reflexivity|].
  split.
  - intros -> -> -> [[us] [Hcs Hgt]]. cbn in Hgt.
    rewrite Hcs. unfold_truth. cbn.
    replace (us =? 0) with false by (symmetry; apply Z.eqb_neq; lia).
    unfold td_gtb. cbn.
    replace (us >? 600000000) with true by (symmetry; apply gtb_gt; lia).
    reflexivity.
  - intros -> -> -> Hskew [d [Hd Htz]].
    rewrite Hd. unfold_truth. cbn. rewrite Htz.
    destruct (kw_clock_skew kw) as [[us]|]; [|reflexivity].
    destruct (us =? 0); cbn; [reflexivity|].
    unfold td_gtb. cbn. destruct (us >? 600000000) eqn:Hgt; [|reflexivity].
    exfalso. apply Hskew. exists (mk_timedelta us).
    split; [reflexivity|]. cbn. apply gtb_gt. exact Hgt.
Qed.

(** ** More on [validate] *)

Lemma find_pointwise {A} (f g : A -> bool) (l : list A) :
  (forall a, f a = g a) -> find f l = find g l.
Proof.
  intros Hfg. induction l as [|a l IH]; cbn; [reflexivity|].
  rewrite Hfg, IH. reflexivity.
Qed.

(** Two runs that violate the same rules, and agree on the reasons of the
    violated ones, end alike. *)
Lemma spec_validate_ext now now' v v' t t' :
  (forall r, violated now v t r = violated now' v' t' r) ->
  (forall r, violated now v t r = true -> reason v t r = reason v' t' r) ->
  spec_validate now v t = spec_validate now' v' t'.
Proof.
  intros Hviol Hreason. unfold spec_validate, first_violation.
  rewrite (find_pointwise _ _ rule_order Hviol).
  destruct (find (violated now' v' t') rule_order) as [r|] eqn:Hf;
    [|reflexivity].
  apply find_some in Hf. destruct Hf as [_ Hr].
  rewrite <- Hviol in Hr. rewrite (Hreason r Hr). reflexivity.
Qed.

Lemma instant_now_utc c : instant (datetime_now_utc c) = c.
Proof. unfold instant, datetime_now_utc. cbn. lia. Qed.




Lemma now_of_clock c v :
  JwtValidator.has_fixed_now v = false -> now_of c v = datetime_now_utc c.
Proof.
  unfold JwtValidator.has_fixed_now, now_of, JwtValidator.fixed_now.
  destruct (JwtValidator._fixed_now v); [discriminate | reflexivity].
Qed.

(** X7. Against the running clock an expired token stays expired, with the
    same error, at every later reading, and a token reported as not yet
    valid is reported so, with the same error, at every earlier reading. *)
Theorem time_passes_one_way kw v c1 c2 t :
  new_validator kw = Ok v ->
  JwtValidator.has_fixed_now v = false ->
  c1 <= c2 ->
  (fails_rule Expired (run_validate c1 v t) ->
   run_validate c2 v t = run_validate c1 v t) /\
  (fails_rule NotBefore (run_validate c2 v t) ->
   run_validate c1 v t = run_validate c2 v t).
Proof.
  intros Hv Hclock Hle.
  rewrite !(run_validate_spec kw v _ t Hv), !(now_of_clock _ v Hclock).
  split; intros Hfail.
  - rewrite (fails_outcome _ _ _ _ Hfail).
    apply fails_outcome, fails_rule_iff, first_violation_iff.
    apply fails_rule_iff, first_violation_iff in Hfail.
    destruct Hfail as [Hexp Hbefore]. split.
    + cbn in *. destruct (RawJwt._exp t) as [e|]; [|discriminate Hexp].
      rewrite instant_now_utc in *.
      apply Z.leb_le in Hexp. apply Z.leb_le. lia.
    + intros r' Hlt. specialize (Hbefore r' Hlt).
      destruct r'; cbn in Hlt; try lia. exact Hbefore.
  - rewrite (fails_outcome _ _ _ _ Hfail).
    apply fails_outcome, fails_rule_iff, first_violation_iff.
    apply fails_rule_iff, first_violation_iff in Hfail.
    destruct Hfail as [Hnbf Hbefore]. split.
    + cbn in *. destruct (RawJwt._nbf t) as [n|]; [|discriminate Hnbf].
      rewrite instant_now_utc in *.
      apply gtb_gt in Hnbf. apply gtb_gt. lia.
    + intros r' Hlt. specialize (Hbefore r' Hlt).
      destruct r'; cbn in Hlt; try lia; [exact Hbefore|].
      cbn in *. destruct (RawJwt._exp t) as [e|]; [|reflexivity].
      rewrite instant_now_utc in *.
      apply Z.leb_gt in Hbefore. apply Z.leb_gt. lia.
Qed.


Lemma existsb_same_members a l l' :
  (forall x : string, In x l <-> In x l') ->
  existsb (String.eqb a) l = existsb (String.eqb a) l'.
Proof.
  intros Hmem.
  destruct (existsb (String.eqb a) l) eqn:Hl,
           (existsb (String.eqb a) l') eqn:Hl'; try reflexivity.
  - apply str_in_iff, Hmem, str_in_iff in Hl. congruence.
  - apply str_in_iff, Hmem, str_in_iff in Hl'. congruence.
Qed.

(** X9. The audience claim counts as a set: two tokens that differ only in
    the order or the repetition of their audiences end alike. *)
Theorem audiences_form_a_set kw v utc_now t auds auds' :
  new_validator kw = Ok v ->
  (forall a, In a auds <-> In a auds') ->
  run_validate utc_now v (set_aud (Some auds) t) =
  run_validate utc_now v (set_aud (Some auds') t).
Proof.
  intros Hv Hmem.
  rewrite !(run_validate_spec kw v utc_now _ Hv).
  apply spec_validate_ext.
  - intros r. destruct r; try reflexivity.
    cbn. unfold audience_rule_violated.
    destruct (JwtValidator.expected_audience v) as [a|]; [|reflexivity].
    rewrite (existsb_same_members a auds auds' Hmem). reflexivity.
  - intros r _. destruct r; reflexivity.
Qed.

(** X10. Unless the policy expects tokens issued in the past, [validate]
    does not look at the issued-at claim: its presence and its value change
    nothing. *)
Theorem issued_at_ignored_unless_expected kw v utc_now t iat iat' :
  new_validator kw = Ok v ->
  JwtValidator.expect_issued_in_the_past v = false ->
  run_validate utc_now v (set_iat iat t) =
  run_validate utc_now v (set_iat iat' t).
Proof.
  intros Hv Hexpect.
  rewrite !(run_validate_spec kw v utc_now _ Hv).
  apply spec_validate_ext.
  - intros r. destruct r; try reflexivity; cbn; rewrite Hexpect; reflexivity.
  - intros r Hr. destruct r; try reflexivity.
    cbn in Hr. rewrite Hexpect in Hr. discriminate Hr.
Qed.

(** X11. A token without expiration and not-before claims is judged
    without the time, when the policy does not expect tokens issued in the
    past: any clock reading and any [fixed_now] give the same outcome. *)
Theorem untimed_token_ignores_clock kw kw' v v' c c' t :
  new_validator kw = Ok v ->
  new_validator kw' = Ok v' ->
  same_policy v v' ->
  JwtValidator.expect_issued_in_the_past v = false ->
  RawJwt._exp t = None ->
  RawJwt._nbf t = None ->
  run_validate c v t = run_validate c' v' t.
Proof.
  intros Hv Hv' Hsame Hexpect Hexp Hnbf.
  rewrite (run_validate_spec kw v c t Hv), (run_validate_spec kw' v' c' t Hv').
  set (now := now_of c v) in *. set (now' := now_of c' v') in *.
  clearbody now now'. clear Hv Hv'.
  destruct v as [eth eis eau ith iis iau ame eiat sk fn].
  destruct v' as [eth' eis' eau' ith' iis' iau' ame' eiat' sk' fn'].
  unfold same_policy in Hsame. cbn in Hsame, Hexpect.
  destruct Hsame as (<- & <- & <- & <- & <- & <- & <- & <- & <-).
  subst eiat.
  apply spec_validate_ext.
  - intros r. destruct r; cbn; rewrite ?Hexp, ?Hnbf; reflexivity.
  - intros r _. destruct r; reflexivity.
Qed.

(** X12. The default policy, as its docstring says, asks for a valid
    expiration and for no issuer and no audience, and it checks not-before
    when present; the code also asks for no type header. It accepts a
    token exactly when the token expires after [now], is not to be used
    only later, and has no type header, no issuer and no audience. *)
Theorem default_policy_accepts utc_now t :
  new_validator default_kwargs = Ok default_validator /\
  (run_validate utc_now default_validator t = Ok tt <->
   (exists e, RawJwt._exp t = Some e /\ utc_now < ts_instant e) /\
   (forall n, RawJwt._nbf t = Some n -> ts_instant n <= utc_now) /\
   RawJwt._typ t = None /\
   RawJwt._iss t = None /\
   RawJwt._aud t = None).
Proof.
  split; [reflexivity|].
  rewrite (run_validate_spec default_kwargs default_validator utc_now t eq_refl).
  rewrite accepted_iff.
  change (now_of utc_now default_validator) with (datetime_now_utc utc_now).
  destruct t as [ex nb ia ty iss au]. cbn [RawJwt._exp RawJwt._nbf RawJwt._typ
    RawJwt._iss RawJwt._aud]. split.
  - intros Hall.
    pose proof (Hall MissingExpiration) as H0.
    pose proof (Hall Expired) as H1.
    pose proof (Hall NotBefore) as H2.
    pose proof (Hall TypeHeader) as H5.
    pose proof (Hall Issuer) as H6.
    pose proof (Hall Audience) as H7.
    cbn in H0, H1, H2, H5, H6, H7. rewrite instant_now_utc in *.
    destruct ex as [e|]; [|discriminate H0].
    destruct ty; [discriminate H5|].
    destruct iss; [discriminate H6|].
    destruct au; [discriminate H7|].
    apply Z.leb_gt in H1.
    repeat split; try reflexivity.
    + exists e. split; [reflexivity | lia].
    + intros n ->. rewrite Z.gtb_ltb in H2. apply Z.ltb_ge in H2. lia.
  - intros ([e [-> He]] & Hnbf & -> & -> & ->) r.
    destruct r; cbn; rewrite ?instant_now_utc; try reflexivity.
    + apply Z.leb_gt. lia.
    + destruct nb as [n|]; [|reflexivity].
      specialize (Hnbf n eq_refl). rewrite Z.gtb_ltb. apply Z.ltb_ge. lia.
Qed.

(** ** The further properties at work *)

(** Five minutes of skew and nothing else: the constructor succeeds. *)
Lemma constructor_succeeds_iff_witness :
  exists v, new_validator five_minutes_kwargs = Ok v.
Proof.
  apply (proj2 (constructor_succeeds_iff five_minutes_kwargs)).
  repeat split.
  - intros [s [Habs _]]. discriminate Habs.
  - intros [s [Habs _]]. discriminate Habs.
  - intros [s [Habs _]]. discriminate Habs.
  - intros cs [= <-]. cbn. lia.
  - intros d Habs. discriminate Habs.
Defined.

(** Built with a fixed [now] only, the validator has it and no skew. *)
Lemma accessors_return_arguments_witness :
  JwtValidator.clock_skew (fixed_validator example_time) = timedelta_zero /\
  JwtValidator.fixed_now (fixed_validator example_time) =
    Some (utc_datetime example_time).
Proof.
  destruct (accessors_return_arguments (fixed_kwargs example_time)
              (fixed_validator example_time) eq_refl)
    as (_ & _ & _ & _ & _ & _ & _ & _ & _ & _ & _ & Hskew & Hfixed & _).
  split; [exact Hskew | exact Hfixed].
Defined.

(** A conflicting type header pair is reported before a skew of eleven
    minutes. *)
Lemma constructor_error_order_witness :
  new_validator
    (mk_kwargs (Some "JWT") None None true false false false false
       (Some (timedelta_minutes 11)) None) =
  Raise (ValueError
    "expected_type_header and ignore_type_header cannot be used together").
Proof.
  apply (proj1 (constructor_error_order
           (mk_kwargs (Some "JWT") None None true false false false false
              (Some (timedelta_minutes 11)) None))).
  exists "JWT". repeat split. discriminate.
Defined.




(** Expired at one reading of the clock, expired a microsecond later. *)
Lemma time_passes_one_way_witness :
  run_validate (example_time + 1) default_validator
    (token_expiring example_time) =
  run_validate example_time default_validator (token_expiring example_time).
Proof.
  apply (proj1 (time_passes_one_way default_kwargs default_validator
           example_time (example_time + 1) (token_expiring example_time)
           eq_refl eq_refl ltac:(vm_compute; discriminate))).
  exists "token has expired since %s". split; [left; reflexivity|].
  eexists. vm_compute. reflexivity.
Defined.


(** The audiences in another order, one of them twice. *)
Lemma audiences_form_a_set_witness :
  run_validate 0 (audience_validator "svc-a" example_time)
    (set_aud (Some ["svc-a"; "svc-b"])
       (token_expiring (example_time + 1))) =
  run_validate 0 (audience_validator "svc-a" example_time)
    (set_aud (Some ["svc-b"; "svc-a"; "svc-b"])
       (token_expiring (example_time + 1))).
Proof.
  apply (audiences_form_a_set (audience_kwargs "svc-a" example_time)
           (audience_validator "svc-a" example_time) 0
           (token_expiring (example_time + 1))
           ["svc-a"; "svc-b"] ["svc-b"; "svc-a"; "svc-b"] eq_refl).
  intros a. cbn. tauto.
Defined.

(** With or without an issued-at claim in the future, the same outcome. *)
Lemma issued_at_ignored_unless_expected_witness :
  run_validate 0 (fixed_validator example_time)
    (set_iat None (token_expiring (example_time + 1))) =
  run_validate 0 (fixed_validator example_time)
    (set_iat (Some (utc_timestamp (example_time + 5)))
       (token_expiring (example_time + 1))).
Proof.
  apply (issued_at_ignored_unless_expected (fixed_kwargs example_time)
           (fixed_validator example_time) 0
           (token_expiring (example_time + 1))
           None (Some (utc_timestamp (example_time + 5)))
           eq_refl eq_refl).
Defined.

(** A token with an issuer and no time claims, at two different times. *)
Lemma untimed_token_ignores_clock_witness :
  run_validate 0 (fixed_validator example_time) (token_untimed "acme") =
  run_validate 5 default_validator (token_untimed "acme").
Proof.
  apply (untimed_token_ignores_clock (fixed_kwargs example_time)
           default_kwargs (fixed_validator example_time) default_validator
           0 5 (token_untimed "acme") eq_refl eq_refl).
  - unfold same_policy. cbn. repeat split.
  - reflexivity.
  - reflexivity.
  - reflexivity.
Defined.

(** The default policy accepts a token that only expires, later. *)
Lemma default_policy_accepts_witness :
  run_validate example_time default_validator
    (token_expiring (example_time + 1)) = Ok tt.
Proof.
  apply (proj2 (proj2 (default_policy_accepts example_time
                         (token_expiring (example_time + 1))))).
  repeat split.
  - exists (utc_timestamp (example_time + 1)). split; reflexivity.
  - intros n Habs. discriminate Habs.
Defined.
